(** * Flask-FileCache: a file-system cache whose entries expire by mtime

    A shallow embedding of [flask_filecache.py] and the properties of its
    public operations.

    The cache keeps one file per key in a directory of its own.  The file's
    content is the payload, its modification time is the instant at which
    the entry expires.  Every method of [FileCache] is a short sequence of
    calls into [os], [shutil], [tempfile] and [time]; the embedding gives
    each of those calls a meaning on an explicit [world] and writes the
    methods in a state-and-exception monad over it, statement by statement.

    Conventions of the model:
    - the cache directory exists ([init_app] has created it) and is a list
      of named nodes in the order [os.listdir] yields them;
    - a path [os.path.join(self._path, fn)] is represented by the entry
      name [fn]; the only other path the class touches is the source of
      [put_file], a file elsewhere that is looked up in [outside];
    - [trace] is a ghost record of the calls made on the directory;
    - clock readings and modification times are rationals, [int] truncates
      towards zero;
    - besides regular files the directory may hold sub-directories (which
      [os.remove] and [os.rename] refuse) and dangling symbolic links (which
      [os.stat] refuses): these are the sources of [OSError] in the model,
      next to a missing file and an exhausted temporary-name generator. *)

From Stdlib Require Import QArith Ascii String.
From stdpp Require Import base option list strings gmap.

Local Open Scope string_scope.
Local Open Scope list_scope.

(** ** The file system *)

Inductive node :=
| File (content : list Byte.byte) (mtime : Q) (mode : Z)
| Dir (mtime : Q)
| BrokenLink.

(** The calls that reach the cache directory, recorded in the order the
    program makes them. *)
Inductive syscall :=
| SysCreate (name : string)
| SysOpenTrunc (name : string)
| SysWrite (name : string) (data : list Byte.byte)
| SysRename (src dst : string)
| SysUnlink (name : string)
| SysUtime (name : string) (t : Z)
| SysChmod (name : string) (mode : Z).

Record world := World {
  clock : Q;
  cache_dir : list (string * node);
  outside : gmap string node;
  entropy : list string;
  trace : list syscall
}.

Definition with_dir (d : list (string * node)) (w : world) : world :=
  World (clock w) d (outside w) (entropy w) (trace w).

Definition with_entropy (l : list string) (w : world) : world :=
  World (clock w) (cache_dir w) (outside w) l (trace w).

Definition with_clock (t : Q) (w : world) : world :=
  World t (cache_dir w) (outside w) (entropy w) (trace w).

Definition logged (e : syscall) (w : world) : world :=
  World (clock w) (cache_dir w) (outside w) (entropy w) (trace w ++ [e]).

Fixpoint dir_lookup (name : string) (d : list (string * node)) : option node :=
  match d with
  | [] => None
  | (n, x) :: d' => if decide (n = name) then Some x else dir_lookup name d'
  end.

Definition dir_unlink (name : string) (d : list (string * node)) :
    list (string * node) :=
  filter (λ e, e.1 ≠ name) d.

Definition dir_alter (f : node → node) (name : string)
    (d : list (string * node)) : list (string * node) :=
  (λ e, if decide (e.1 = name) then (e.1, f e.2) else e) <$> d.

(** A name that exists keeps its place in the listing, a new one goes to
    the end. *)
Definition dir_store (name : string) (x : node) (d : list (string * node)) :
    list (string * node) :=
  match dir_lookup name d with
  | Some _ => dir_alter (λ _, x) name d
  | None => d ++ [(name, x)]
  end.

Definition set_mtime (t : Q) (x : node) : node :=
  match x with
  | File c _ md => File c t md
  | Dir _ => Dir t
  | BrokenLink => BrokenLink
  end.

(** Permission bits are tracked for regular files only. *)
Definition set_mode (mode : Z) (x : node) : node :=
  match x with
  | File c m _ => File c m mode
  | _ => x
  end.

Definition read_file (name : string) (w : world) : option (list Byte.byte) :=
  match dir_lookup name (cache_dir w) with
  | Some (File data _ _) => Some data
  | _ => None
  end.

(** ** Exceptions and the monad of the methods *)

Inductive exn := OSError | UnboundLocalError.

Inductive outcome (A : Type) :=
| Ok (a : A)
| Raise (e : exn).
Arguments Ok {A} a.
Arguments Raise {A} e.

Definition M (A : Type) : Type := world → outcome A * world.

Definition ret {A} (a : A) : M A := λ w, (Ok a, w).

Definition raise {A} (e : exn) : M A := λ w, (Raise e, w).

Definition bind {A B} (m : M A) (k : A → M B) : M B :=
  λ w, match m w with
       | (Ok a, w') => k a w'
       | (Raise e, w') => (Raise e, w')
       end.

Notation "'let*' x ':=' m 'in' k" := (bind m (λ x, k))
  (at level 10, x pattern, m at level 100, k at level 200).

(** [try: body except (IOError, OSError): handler]. *)
Definition try_except {A} (body handler : M A) : M A :=
  λ w, match body w with
       | (Raise OSError, w') => handler w'
       | r => r
       end.

(** [try: body except (IOError, OSError): handler else: orelse]; the
    [else] suite sees what the body has bound. *)
Definition try_except_else {A B} (body : M A) (handler : M B)
    (orelse : A → M B) : M B :=
  λ w, match body w with
       | (Ok a, w') => orelse a w'
       | (Raise OSError, w') => handler w'
       | (Raise e, w') => (Raise e, w')
       end.

(** Reading a local variable that no branch has assigned. *)
Definition local {A} (x : option A) : M A :=
  match x with
  | Some a => ret a
  | None => raise UnboundLocalError
  end.

(** ** The library calls *)

Definition mode_0o600 : Z := 384.
Definition mode_0o644 : Z := 420.

Definition int (x : Q) : Z := Z.quot (Qnum x) (Zpos (Qden x)).

Definition Qlt_bool (x y : Q) : bool := negb (Qle_bool y x).

Definition time_time : M Q := λ w, (Ok (clock w), w).

Definition os_listdir : M (list string) := λ w, (Ok (cache_dir w).*1, w).

Definition os_path_getmtime (name : string) : M Q :=
  λ w, match dir_lookup name (cache_dir w) with
       | Some (File _ m _) | Some (Dir m) => (Ok m, w)
       | Some BrokenLink | None => (Raise OSError, w)
       end.

Definition os_remove (name : string) : M unit :=
  λ w, match dir_lookup name (cache_dir w) with
       | Some (File _ _ _) | Some BrokenLink =>
           (Ok tt,
            logged (SysUnlink name)
              (with_dir (dir_unlink name (cache_dir w)) w))
       | Some (Dir _) | None => (Raise OSError, w)
       end.

(** [tempfile] draws candidate names until one is free and gives up with
    [FileExistsError] when it has none left. *)
Fixpoint free_name (suffix : string) (d : list (string * node))
    (draws : list string) : option (string * list string) :=
  match draws with
  | [] => None
  | r :: rest =>
      let name := "tmp" +:+ r +:+ suffix in
      match dir_lookup name d with
      | Some _ => free_name suffix d rest
      | None => Some (name, rest)
      end
  end.

Definition tempfile_mkstemp (suffix : string) : M string :=
  λ w, match free_name suffix (cache_dir w) (entropy w) with
       | Some (name, rest) =>
           (Ok name,
            logged (SysCreate name)
              (with_entropy rest
                 (with_dir
                    (cache_dir w ++ [(name, File [] (clock w) mode_0o600)])
                    w)))
       | None => (Raise OSError, with_entropy [] w)
       end.

(** [with os.fdopen(fd, 'wb') as f: f.write(data)], and the write half of
    [shutil.copyfile]. *)
Definition file_write (name : string) (data : list Byte.byte) : M unit :=
  λ w, match dir_lookup name (cache_dir w) with
       | Some (File _ _ md) =>
           (Ok tt,
            logged (SysWrite name data)
              (with_dir
                 (dir_alter (λ _, File data (clock w) md) name (cache_dir w))
                 w))
       | _ => (Raise OSError, w)
       end.

Definition os_rename (src dst : string) : M unit :=
  λ w, match dir_lookup src (cache_dir w) with
       | None => (Raise OSError, w)
       | Some x =>
           if decide (src = dst) then (Ok tt, logged (SysRename src dst) w)
           else match dir_lookup dst (cache_dir w) with
                | Some (Dir _) => (Raise OSError, w)
                | _ =>
                    (Ok tt,
                     logged (SysRename src dst)
                       (with_dir
                          (dir_store dst x (dir_unlink src (cache_dir w)))
                          w))
                end
       end.

Definition os_utime (name : string) (t : Z) : M unit :=
  λ w, match dir_lookup name (cache_dir w) with
       | Some (File _ _ _) | Some (Dir _) =>
           (Ok tt,
            logged (SysUtime name t)
              (with_dir (dir_alter (set_mtime (inject_Z t)) name (cache_dir w))
                 w))
       | Some BrokenLink | None => (Raise OSError, w)
       end.

Definition os_chmod (name : string) (mode : Z) : M unit :=
  λ w, match dir_lookup name (cache_dir w) with
       | Some (File _ _ _) | Some (Dir _) =>
           (Ok tt,
            logged (SysChmod name mode)
              (with_dir (dir_alter (set_mode mode) name (cache_dir w)) w))
       | Some BrokenLink | None => (Raise OSError, w)
       end.

Fixpoint has_slash (p : string) : bool :=
  match p with
  | EmptyString => false
  | String c r => Ascii.eqb c "/"%char || has_slash r
  end.

Fixpoint os_path_basename (p : string) : string :=
  match p with
  | EmptyString => EmptyString
  | String c r =>
      if has_slash r then os_path_basename r
      else if Ascii.eqb c "/"%char then r else p
  end.

(** [open(dst, 'wb')] inside the cache directory. *)
Definition open_wb (name : string) : M unit :=
  λ w, if decide (name = "") then (Raise OSError, w)
       else match dir_lookup name (cache_dir w) with
            | Some (Dir _) | Some BrokenLink => (Raise OSError, w)
            | Some (File _ _ md) =>
                (Ok tt,
                 logged (SysOpenTrunc name)
                   (with_dir
                      (dir_alter (λ _, File [] (clock w) md) name
                         (cache_dir w)) w))
            | None =>
                (Ok tt,
                 logged (SysOpenTrunc name)
                   (with_dir
                      (cache_dir w ++ [(name, File [] (clock w) mode_0o644)])
                      w))
            end.

(** [shutil.copy(src, directory)]: [copyfile] to the source's base name in
    the directory, then [copymode]; returns the destination. *)
Definition shutil_copy (src : string) : M string :=
  let dst := os_path_basename src in
  λ w, match outside w !! src with
       | Some (File data _ smode) =>
           (let* _ := open_wb dst in
            let* _ := file_write dst data in
            let* _ := os_chmod dst smode in
            ret dst) w
       | _ => (Raise OSError, w)
       end.

(** ** class FileCache *)

Record FileCache := {
  _path : string;
  _threshold : Z;
  _timeout : Q;
  _mode : Z
}.

Definition _fs_transaction_suffix : string := "__cache_tmp".

Definition _list_dir : M (list string) := os_listdir.

(** [for idx, fname in enumerate(entries)] of [_prune], from index [idx]
    on. *)
Fixpoint prune_loop (now : Q) (idx : nat) (entries : list string) : M unit :=
  match entries with
  | [] => ret tt
  | fname :: rest =>
      let* mtime := os_path_getmtime fname in
      let remove := Qlt_bool mtime now || (idx mod 3 =? 0)%nat in
      let* _ := (if remove then os_remove fname else ret tt) in
      prune_loop now (S idx) rest
  end.

Definition _prune (self : FileCache) : M unit :=
  let* entries := _list_dir in
  if (Z.of_nat (length entries) >? _threshold self)%Z then
    let* now := time_time in
    try_except (prune_loop now 0 entries) (ret tt)
  else ret tt.

(** [for fname in self._list_dir()] of [clear]; a [return False] in the
    handler leaves the loop. *)
Fixpoint clear_loop (entries : list string) : M bool :=
  match entries with
  | [] => ret true
  | fname :: rest =>
      let* removed :=
        try_except (let* _ := os_remove fname in ret true) (ret false) in
      if removed : bool then clear_loop rest else ret false
  end.

Definition clear (self : FileCache) : M bool :=
  let* entries := _list_dir in
  clear_loop entries.

Definition get (self : FileCache) (filename : string) : M (option string) :=
  try_except
    (let path := filename in
     let* mtime := os_path_getmtime path in
     let* now := time_time in
     if Qle_bool now mtime then ret (Some path)
     else let* _ := os_remove path in ret None)
    (ret None).

(** The statement that opens [put] and [put_file],
    [if timeout is None: expires = int(time.time() + self._timeout)]
    [elif timeout != 0: expires = int(time.time() + timeout)];
    the result is the local [expires], unassigned when neither branch
    runs. *)
Definition expiry (self : FileCache) (timeout : option Q) : M (option Z) :=
  match timeout with
  | None => let* t := time_time in ret (Some (int (t + _timeout self)))
  | Some s =>
      if negb (Qeq_bool s 0) then
        let* t := time_time in ret (Some (int (t + s)))
      else ret None
  end.

Definition put (self : FileCache) (filename : string)
    (data : list Byte.byte) (timeout : option Q) : M (option string) :=
  let* expires := expiry self timeout in
  let* _ := _prune self in
  let path := filename in
  try_except_else
    (let* tmp := tempfile_mkstemp _fs_transaction_suffix in
     let* _ := file_write tmp data in
     let* _ := os_rename tmp path in
     let* e := local expires in
     let* _ := os_utime path e in
     os_chmod path (_mode self))
    (ret None)
    (λ _, ret (Some path)).

Definition put_file (self : FileCache) (path : string)
    (timeout : option Q) : M (option string) :=
  let* expires := expiry self timeout in
  let* _ := _prune self in
  try_except_else
    (let* cached := shutil_copy path in
     let* e := local expires in
     let* _ := os_utime cached e in
     let* _ := os_chmod cached (_mode self) in
     ret cached)
    (ret None)
    (λ cached, ret (Some cached)).

Definition delete (self : FileCache) (filename : string) : M bool :=
  try_except_else (os_remove filename) (ret false) (λ _, ret true).

Definition has (self : FileCache) (filename : string) : M bool :=
  try_except
    (let path := filename in
     let* mtime := os_path_getmtime path in
     let* now := time_time in
     if Qle_bool now mtime then ret true
     else let* _ := os_remove path in ret false)
    (ret false).

(** ** Construction and configuration

    [__init__] and [init_app] work on dynamically typed values: the
    instance is its attribute dictionary, the application its [config]
    dictionary.  ([self.app] and the [os.makedirs] call of [init_app] play
    no part in the attributes and are left out.) *)

Module Config.

Inductive pyval :=
| PNone
| PInt (n : Z)
| PFloat (q : Q)
| PStr (s : string).

#[global] Instance pyval_inhabited : Inhabited pyval := populate PNone.

(** The test Python applies in [if v:]. *)
Definition truthy (v : pyval) : bool :=
  match v with
  | PNone => false
  | PInt n => negb (n =? 0)%Z
  | PFloat q => negb (Qeq_bool q 0)
  | PStr s => negb (String.eqb s "")
  end.

Definition DEFAULT_CONFIG : list (string * pyval) :=
  [ ("FILECACHE_DIR", PStr "/tmp/flask-filecache.cache_dir");
    ("FILECACHE_THRESHOLD", PInt 500);
    ("FILECACHE_TIMEOUT", PInt 3000);
    ("FILECACHE_MODE", PInt 384) ].

Definition setdefault (k : string) (v : pyval) (d : gmap string pyval) :
    gmap string pyval :=
  match d !! k with
  | Some _ => d
  | None => <[k := v]> d
  end.

Definition getattr (self : gmap string pyval) (name : string)
    (dflt : pyval) : pyval :=
  default dflt (self !! name).

Definition set_if (v : pyval) (name : string) (self : gmap string pyval) :
    gmap string pyval :=
  if truthy v then <[name := v]> self else self.

Definition init_app (self config : gmap string pyval) :
    gmap string pyval * gmap string pyval :=
  let config := foldl (λ c kv, setdefault kv.1 kv.2 c) config DEFAULT_CONFIG in
  let self :=
    <["_path" := getattr self "_path" (config !!! "FILECACHE_DIR")]> self in
  let self :=
    <["_threshold" :=
        getattr self "_threshold" (config !!! "FILECACHE_THRESHOLD")]> self in
  let self :=
    <["_timeout" :=
        getattr self "_timeout" (config !!! "FILECACHE_TIMEOUT")]> self in
  let self :=
    <["_mode" := getattr self "_mode" (config !!! "FILECACHE_MODE")]> self in
  (self, config).

(** [FileCache(app, cache_dir, threshold, timeout, mode)]; [app] is the
    application's [config] when an application is given.  Returns the
    instance and the application's [config] afterwards. *)
Definition __init__ (app : option (gmap string pyval))
    (cache_dir threshold timeout mode : pyval) :
    gmap string pyval * option (gmap string pyval) :=
  let self := set_if cache_dir "_path" ∅ in
  let self := set_if threshold "_threshold" self in
  let self := set_if timeout "_timeout" self in
  let self := set_if mode "_mode" self in
  match app with
  | Some config =>
      let '(self, config) := init_app self config in (self, Some config)
  | None => (self, None)
  end.

(** The instance after [FileCache(None, ...)] followed by [init_app(app)],
    which is also what [FileCache(app, ...)] yields. *)
Definition configured (config : gmap string pyval)
    (cache_dir threshold timeout mode : pyval) : gmap string pyval :=
  (init_app (__init__ None cache_dir threshold timeout mode).1 config).1.

(** What the application's [config] holds under key [k] once [init_app]
    has filled in the defaults. *)
Definition config_value (config : gmap string pyval) (k : string) : pyval :=
  (init_app ∅ config).2 !!! k.

(** The attributes as the methods read them. *)
Definition as_FileCache (self : gmap string pyval) : option FileCache :=
  match self !! "_path", self !! "_threshold", self !! "_timeout",
        self !! "_mode" with
  | Some (PStr p), Some (PInt th), Some (PInt s), Some (PInt md) =>
      Some {| _path := p; _threshold := th; _timeout := inject_Z s;
              _mode := md |}
  | Some (PStr p), Some (PInt th), Some (PFloat s), Some (PInt md) =>
      Some {| _path := p; _threshold := th; _timeout := s; _mode := md |}
  | _, _, _, _ => None
  end.

End Config.

(** ** Vocabulary of the statements *)

Definition is_file (x : node) : bool :=
  match x with File _ _ _ => true | _ => false end.

(** [os.remove] accepts the node. *)
Definition removable (x : node) : bool :=
  match x with Dir _ => false | _ => true end.

(** What [os.stat] reports as the modification time. *)
Definition stored_expiry (x : node) : option Q :=
  match x with
  | File _ m _ | Dir m => Some m
  | BrokenLink => None
  end.

(** The eviction condition of the prune pass for the entry at position [i]. *)
Definition evict (now : Q) (i : nat) (x : node) : bool :=
  match stored_expiry x with
  | Some m => Qlt_bool m now || (i mod 3 =? 0)%nat
  | None => false
  end.


(** The entries a complete pass starting at position [i] leaves behind. *)
Fixpoint survivors (now : Q) (i : nat) (d : list (string * node)) :
    list (string * node) :=
  match d with
  | [] => []
  | e :: d' =>
      if evict now i e.2 then survivors now (S i) d'
      else e :: survivors now (S i) d'
  end.

(** The value [put] and [put_file] leave in their local [expires]; [None]
    when no branch assigns it. *)
Definition expires_at (self : FileCache) (timeout : option Q) (now : Q) :
    option Z :=
  match timeout with
  | None => Some (int (now + _timeout self))
  | Some s => if Qeq_bool s 0 then None else Some (int (now + s))
  end.

(** Python's [name.endswith(suffix)]. *)
Fixpoint endswith (name suffix : string) : bool :=
  if decide (name = suffix) then true
  else match name with
       | EmptyString => false
       | String _ name' => endswith name' suffix
       end.

Definition transient (name : string) : bool :=
  endswith name _fs_transaction_suffix.


(** ** Sample data *)

Definition test_data : list Byte.byte :=
  [Byte.x54; Byte.x65; Byte.x73; Byte.x74; Byte.x20;
   Byte.x64; Byte.x61; Byte.x74; Byte.x61].

Definition default_cache : FileCache :=
  {| _path := "/tmp/flask-filecache.cache_dir";
     _threshold := 500; _timeout := 3000; _mode := mode_0o600 |}.

Definition small_cache : FileCache :=
  {| _path := "/tmp/flask-filecache.cache_dir";
     _threshold := 1; _timeout := 3000; _mode := mode_0o600 |}.

Definition empty_world : world :=
  {| clock := 1000; cache_dir := []; outside := ∅;
     entropy := ["k3v9x_ab"; "q0z7m2cd"]; trace := [] |}.

Definition world_with_source : world :=
  {| clock := 1000; cache_dir := [];
     outside := {[ "/tmp/test.dat" := File test_data 990 mode_0o644 ]};
     entropy := ["k3v9x_ab"]; trace := [] |}.

Definition world_with_four_files : world :=
  {| clock := 1000;
     cache_dir := [ ("a.dat", File test_data 4000 mode_0o600);
                    ("b.dat", File test_data 4000 mode_0o600);
                    ("c.dat", File test_data 10 mode_0o600);
                    ("d.dat", File test_data 4000 mode_0o600) ];
     outside := ∅; entropy := ["k3v9x_ab"]; trace := [] |}.


Definition world_with_blocked_clear : world :=
  {| clock := 1000;
     cache_dir := [ ("a.dat", File test_data 4000 mode_0o600);
                    ("sub", Dir 2000);
                    ("b.dat", File test_data 4000 mode_0o600) ];
     outside := ∅; entropy := ["k3v9x_ab"]; trace := [] |}.


Definition world_with_subdir : world :=
  {| clock := 1000;
     cache_dir := [ ("sub", Dir 2000);
                    ("old.dat", File test_data 10 mode_0o600);
                    ("new.dat", File test_data 4000 mode_0o600) ];
     outside := ∅; entropy := ["k3v9x_ab"]; trace := [] |}.

(** ** The directory as an association list *)

Section Directory.
Implicit Types (d : list (string * node)) (n : string) (x : node).

Lemma dir_lookup_app n d1 d2 :
  dir_lookup n (d1 ++ d2) =
  match dir_lookup n d1 with
  | Some x => Some x
  | None => dir_lookup n d2
  end.
Proof.
  induction d1 as [|[n' x'] d1 IH]; simpl; [done|].
  by case_decide.
Qed.

Lemma dir_lookup_None n d : dir_lookup n d = None ↔ n ∉ d.*1.
Proof.
  induction d as [|[n' x'] d IH]; simpl.
  - split; [intros _; apply not_elem_of_nil | done].
  - rewrite not_elem_of_cons. case_decide; subst.
    + split; [done | by intros [? _]].
    + rewrite IH. split; [intros; split; [congruence | done] |].
      by intros [_ ?].
Qed.


Lemma dir_lookup_head n x d : dir_lookup n ((n, x) :: d) = Some x.
Proof. simpl. by rewrite decide_True. Qed.

Lemma dir_unlink_absent n d : n ∉ d.*1 → dir_unlink n d = d.
Proof.
  unfold dir_unlink. induction d as [|[n' x'] d IH]; simpl; [done|].
  rewrite not_elem_of_cons. intros [Hne Hd].
  rewrite filter_cons_True by (simpl; congruence).
  by rewrite IH.
Qed.

Lemma dir_unlink_app n d1 d2 :
  dir_unlink n (d1 ++ d2) = dir_unlink n d1 ++ dir_unlink n d2.
Proof. apply filter_app. Qed.

Lemma dir_unlink_head n x d : dir_unlink n ((n, x) :: d) = dir_unlink n d.
Proof. unfold dir_unlink. by rewrite filter_cons_False by naive_solver. Qed.

Lemma dir_unlink_sublist n d : dir_unlink n d `sublist_of` d.
Proof. apply sublist_filter. Qed.

Lemma names_sublist d1 d2 :
  d1 `sublist_of` d2 → d1.*1 `sublist_of` d2.*1.
Proof. induction 1; simpl; by constructor. Qed.

Lemma names_NoDup_sublist d1 d2 :
  d1 `sublist_of` d2 → NoDup d2.*1 → NoDup d1.*1.
Proof. intros Hsub Hnd. eapply sublist_NoDup, names_sublist; done. Qed.

Lemma sublist_drop_middle (e : string * node) d1 d2 :
  d1 ++ d2 `sublist_of` d1 ++ e :: d2.
Proof. apply sublist_app; [done|]. by apply sublist_cons. Qed.

(** Removing the entry in the middle of a listing without duplicates. *)
Lemma dir_unlink_middle n x d1 d2 :
  NoDup (d1 ++ (n, x) :: d2).*1 →
  dir_unlink n (d1 ++ (n, x) :: d2) = d1 ++ d2.
Proof.
  rewrite fmap_app, fmap_cons. simpl. intros Hnd.
  apply NoDup_app in Hnd as (_ & Hdisj & Hnd2).
  apply NoDup_cons in Hnd2 as [Hn2 _].
  rewrite dir_unlink_app, dir_unlink_head.
  rewrite !dir_unlink_absent; [done | done |].
  intros Hin. apply (Hdisj _ Hin). left.
Qed.

Lemma dir_lookup_middle n x d1 d2 :
  NoDup (d1 ++ (n, x) :: d2).*1 →
  dir_lookup n (d1 ++ (n, x) :: d2) = Some x.
Proof.
  rewrite fmap_app, fmap_cons. simpl. intros Hnd.
  apply NoDup_app in Hnd as (_ & Hdisj & _).
  rewrite dir_lookup_app.
  assert (dir_lookup n d1 = None) as ->.
  { apply dir_lookup_None. intros Hin. apply (Hdisj _ Hin). left. }
  apply dir_lookup_head.
Qed.

Lemma dir_lookup_unlink_eq n d : dir_lookup n (dir_unlink n d) = None.
Proof.
  apply dir_lookup_None. unfold dir_unlink.
  intros ([n' x'] & -> & Hin)%list_elem_of_fmap.
  apply list_elem_of_filter in Hin as [Hne _]. by apply Hne.
Qed.

Lemma dir_lookup_unlink_ne n n' d :
  n ≠ n' → dir_lookup n' (dir_unlink n d) = dir_lookup n' d.
Proof.
  intros Hne. unfold dir_unlink.
  induction d as [|[m x] d IH]; simpl; [done|].
  destruct (decide (m = n)) as [->|Hm].
  - rewrite filter_cons_False by naive_solver.
    by rewrite decide_False.
  - rewrite filter_cons_True by done. simpl. by rewrite IH.
Qed.


Lemma dir_lookup_alter f n n' d :
  dir_lookup n' (dir_alter f n d) =
  if decide (n = n') then f <$> dir_lookup n d else dir_lookup n' d.
Proof.
  unfold dir_alter. induction d as [|[m x] d IH]; simpl.
  - by case_decide.
  - fold (dir_alter f n d) in *.
    repeat (case_decide; simpl in *; simplify_eq); rewrite ?IH;
      repeat (case_decide; simplify_eq); done.
Qed.

Lemma dir_lookup_store n n' x d :
  dir_lookup n' (dir_store n x d) =
  if decide (n = n') then Some x else dir_lookup n' d.
Proof.
  unfold dir_store. destruct (dir_lookup n d) as [y|] eqn:Hn.
  - rewrite dir_lookup_alter. case_decide; [|done].
    by rewrite Hn.
  - rewrite dir_lookup_app. simpl.
    destruct (decide (n = n')) as [->|Hne].
    + by rewrite Hn.
    + by destruct (dir_lookup n' d).
Qed.


End Directory.

(** ** Running the monad *)

Ltac world_simpl :=
  unfold logged, with_dir, with_entropy;
  cbn [cache_dir clock trace outside entropy].

Lemma bind_ok {A B} (m : M A) (k : A → M B) w a w' :
  m w = (Ok a, w') → bind m k w = k a w'.
Proof. unfold bind. by intros ->. Qed.


Lemma getmtime_run n w :
  os_path_getmtime n w =
  (match dir_lookup n (cache_dir w) ≫= stored_expiry with
   | Some m => Ok m
   | None => Raise OSError
   end, w).
Proof.
  unfold os_path_getmtime.
  by destruct (dir_lookup n (cache_dir w)) as [[]|].
Qed.

Lemma remove_run n w :
  os_remove n w =
  match dir_lookup n (cache_dir w) with
  | Some x =>
      if removable x
      then (Ok tt,
            logged (SysUnlink n) (with_dir (dir_unlink n (cache_dir w)) w))
      else (Raise OSError, w)
  | None => (Raise OSError, w)
  end.
Proof.
  unfold os_remove.
  by destruct (dir_lookup n (cache_dir w)) as [[]|].
Qed.

(** ** The prune pass *)

Section Prune.
Variable now : Q.



(** A pass over entries that are all regular files runs to its end and
    leaves the survivors, whatever surrounds them in the listing. *)
Lemma prune_loop_regular rest :
  ∀ idx kept tail w,
    cache_dir w = kept ++ rest ++ tail →
    NoDup (kept ++ rest ++ tail).*1 →
    Forall (λ e, is_file e.2) rest →
    ∃ w', prune_loop now idx rest.*1 w = (Ok tt, w') ∧
          cache_dir w' = kept ++ survivors now idx rest ++ tail ∧
          clock w' = clock w.
Proof.
  induction rest as [|[n x] rest IH]; intros idx kept tail w Hw Hnd Hreg.
  - exists w. by simpl.
  - apply Forall_cons in Hreg as [Hx Hreg].
    destruct x as [c m md| |]; try done. clear Hx.
    simpl in Hw, Hnd.
    assert (dir_lookup n (cache_dir w) = Some (File c m md)) as Hn.
    { rewrite Hw. by apply dir_lookup_middle. }
    cbn [fmap list_fmap prune_loop fst].
    rewrite (bind_ok _ _ w m w)
      by (by rewrite getmtime_run, Hn).
    cbn [survivors snd evict stored_expiry].
    destruct (Qlt_bool m now || (idx mod 3 =? 0)%nat) eqn:Hev.
    + set (w1 := logged (SysUnlink n)
                   (with_dir (dir_unlink n (cache_dir w)) w)).
      rewrite (bind_ok _ _ w tt w1) by (by rewrite remove_run, Hn).
      destruct (IH (S idx) kept tail w1) as (w' & Hrun & Hdir & Hclk);
        [| |done|].
      * simpl. rewrite Hw. by apply dir_unlink_middle.
      * eapply names_NoDup_sublist; [|exact Hnd].
        apply sublist_drop_middle.
      * exists w'. by rewrite Hrun, Hdir, Hclk.
    + rewrite (bind_ok _ _ w tt w) by done.
      destruct (IH (S idx) (kept ++ [(n, File c m md)]) tail w)
        as (w' & Hrun & Hdir & Hclk); [| |done|].
      * by rewrite <- app_assoc.
      * by rewrite <- app_assoc.
      * exists w'. rewrite Hrun, Hdir, Hclk. by rewrite <- app_assoc.
Qed.



End Prune.

(** Whatever the directory holds, the loop only ever removes entries and
    fails with nothing but [OSError]; the rest of the world is untouched. *)
Lemma prune_loop_frame now l :
  ∀ idx w, ∃ o w',
    prune_loop now idx l w = (o, w') ∧
    (o = Ok tt ∨ o = Raise OSError) ∧
    cache_dir w' `sublist_of` cache_dir w ∧
    clock w' = clock w ∧ entropy w' = entropy w ∧ outside w' = outside w.
Proof.
  induction l as [|f l IH]; intros idx w; cbn [prune_loop].
  - exists (Ok tt), w. split_and!; auto.
  - unfold bind. rewrite getmtime_run.
    destruct (dir_lookup f (cache_dir w) ≫= stored_expiry) as [m|];
      [|exists (Raise OSError), w; split_and!; auto].
    destruct (Qlt_bool m now || (idx mod 3 =? 0)%nat).
    + rewrite remove_run.
      destruct (dir_lookup f (cache_dir w)) as [x|];
        [|exists (Raise OSError), w; split_and!; auto].
      destruct (removable x); [|exists (Raise OSError), w; split_and!; auto].
      match goal with |- context [prune_loop now (S idx) l ?w1] =>
        destruct (IH (S idx) w1)
          as (o & w' & -> & Hr & Hsub & Hclk & Hent & Hout) end.
      exists o, w'. split_and!; try done.
      etrans; [exact Hsub|]. apply dir_unlink_sublist.
    + unfold ret. apply IH.
Qed.

Lemma prune_unfold self w :
  _prune self w =
  if (Z.of_nat (length (cache_dir w)) >? _threshold self)%Z
  then try_except (prune_loop (clock w) 0 (cache_dir w).*1) (ret tt) w
  else (Ok tt, w).
Proof.
  unfold _prune, _list_dir, os_listdir, bind, time_time.
  rewrite length_fmap. by destruct (_ >? _)%Z.
Qed.

Lemma prune_frame self w :
  ∃ w', _prune self w = (Ok tt, w') ∧
        cache_dir w' `sublist_of` cache_dir w ∧
        clock w' = clock w ∧ entropy w' = entropy w ∧
        outside w' = outside w.
Proof.
  rewrite prune_unfold.
  destruct (_ >? _)%Z; [|by exists w].
  unfold try_except.
  destruct (prune_loop_frame (clock w) (cache_dir w).*1 0 w)
    as (o & w' & -> & Hr & Hrest).
  exists w'. by destruct Hr as [-> | ->].
Qed.






(** ** Validation: [get] and [has] *)

Lemma get_run self key w :
  get self key w =
  match dir_lookup key (cache_dir w) with
  | Some x =>
      match stored_expiry x with
      | Some m =>
          if Qle_bool (clock w) m then (Ok (Some key), w)
          else if removable x
               then (Ok None,
                     logged (SysUnlink key)
                       (with_dir (dir_unlink key (cache_dir w)) w))
               else (Ok None, w)
      | None => (Ok None, w)
      end
  | None => (Ok None, w)
  end.
Proof.
  unfold get, try_except, bind, time_time, os_path_getmtime, os_remove, ret.
  destruct (dir_lookup key (cache_dir w)) as [[c m md|m|]|] eqn:Hk;
    simpl; try done;
    destruct (Qle_bool (clock w) m); simpl; by rewrite ?Hk.
Qed.

Lemma has_run self key w :
  has self key w =
  match dir_lookup key (cache_dir w) with
  | Some x =>
      match stored_expiry x with
      | Some m =>
          if Qle_bool (clock w) m then (Ok true, w)
          else if removable x
               then (Ok false,
                     logged (SysUnlink key)
                       (with_dir (dir_unlink key (cache_dir w)) w))
               else (Ok false, w)
      | None => (Ok false, w)
      end
  | None => (Ok false, w)
  end.
Proof.
  unfold has, try_except, bind, time_time, os_path_getmtime, os_remove, ret.
  destruct (dir_lookup key (cache_dir w)) as [[c m md|m|]|] eqn:Hk;
    simpl; try done;
    destruct (Qle_bool (clock w) m); simpl; by rewrite ?Hk.
Qed.

Lemma Qle_bool_false x y : (y < x)%Q → Qle_bool x y = false.
Proof.
  intros Hlt. destruct (Qle_bool x y) eqn:Hle; [|done].
  apply Qle_bool_iff in Hle. by apply Qlt_not_le in Hlt.
Qed.

(** C5.  [get(key)] returns the entry's path exactly when the entry exists
    and its stored expiry instant is at or after the current time; an
    existing file whose expiry instant is strictly before now is deleted
    and the miss sentinel returned; an entry that cannot be stat'd (absent
    included) gives the miss sentinel and leaves the world as it was. *)
Theorem get_validates_entry self key w :
  (∀ p, (get self key w).1 = Ok (Some p) ↔
        p = key ∧
        ∃ x m, dir_lookup key (cache_dir w) = Some x ∧
               stored_expiry x = Some m ∧ (clock w <= m)%Q) ∧
  (∀ c m md,
     dir_lookup key (cache_dir w) = Some (File c m md) → (m < clock w)%Q →
     (get self key w).1 = Ok None ∧
     cache_dir (get self key w).2 = dir_unlink key (cache_dir w) ∧
     dir_lookup key (cache_dir (get self key w).2) = None) ∧
  (dir_lookup key (cache_dir w) ≫= stored_expiry = None →
   get self key w = (Ok None, w)).
Proof.
  rewrite get_run. split_and!.
  - intros p.
    destruct (dir_lookup key (cache_dir w)) as [x|] eqn:Hk; simpl;
      [|split; [done | by intros (_ & ? & ? & ? & _)]].
    destruct (stored_expiry x) as [m|] eqn:Hs; simpl.
    + destruct (Qle_bool (clock w) m) eqn:Hle.
      * apply Qle_bool_iff in Hle. split.
        -- intros [= <-]. eauto 6.
        -- by intros [-> _].
      * split; [by destruct (removable x)|].
        intros (_ & x' & m' & [= <-] & Hm & Hle').
        apply Qle_bool_iff in Hle'. congruence.
    + split; [done|].
      intros (_ & x' & m' & [= <-] & Hm & _). congruence.
  - intros c m md -> Hlt. simpl.
    rewrite Qle_bool_false by done. simpl.
    split_and!; [done..|]. apply dir_lookup_unlink_eq.
  - destruct (dir_lookup key (cache_dir w)) as [x|]; simpl; [|done].
    by intros ->.
Qed.

Lemma get_validates_entry_witness :
  (get small_cache "c.dat" world_with_four_files).1 = Ok None ∧
  dir_lookup "c.dat"
    (cache_dir (get small_cache "c.dat" world_with_four_files).2) = None ∧
  get small_cache "missing" world_with_four_files
    = (Ok None, world_with_four_files) ∧
  (get small_cache "a.dat" world_with_four_files).1 = Ok (Some "a.dat").
Proof.
  destruct (get_validates_entry small_cache "c.dat" world_with_four_files)
    as (_ & Hexp & _).
  destruct (Hexp test_data 10%Q mode_0o600) as (Hr & _ & Hgone);
    [reflexivity | reflexivity |].
  destruct (get_validates_entry small_cache "missing" world_with_four_files)
    as (_ & _ & Hmiss).
  destruct (get_validates_entry small_cache "a.dat" world_with_four_files)
    as (Hhit & _ & _).
  split_and!; [done | done | by apply Hmiss |].
  apply Hhit. split; [done|].
  exists (File test_data 4000 mode_0o600), 4000%Q.
  split_and!; [done..|]. by vm_compute.
Defined.


(** ** [clear] *)

(** The loop works its way through a prefix of removable entries and then
    carries on with whatever follows. *)
Lemma clear_loop_removable pre :
  ∀ post w,
    cache_dir w = pre ++ post →
    NoDup (pre ++ post).*1 →
    Forall (λ e, removable e.2) pre →
    ∃ w1, cache_dir w1 = post ∧
          ∀ names, clear_loop (pre.*1 ++ names) w = clear_loop names w1.
Proof.
  induction pre as [|[n x] pre IH]; intros post w Hw Hnd Hrem.
  - by exists w.
  - apply Forall_cons in Hrem as [Hx Hrem]. simpl in Hx.
    set (w0 := logged (SysUnlink n)
                 (with_dir (dir_unlink n (cache_dir w)) w)).
    destruct (IH post w0) as (w1 & Hdir & Hloop); [| |done|].
    + simpl. rewrite Hw. apply (dir_unlink_middle n x []). exact Hnd.
    + eapply names_NoDup_sublist; [|exact Hnd]. by apply sublist_cons.
    + exists w1. split; [done|]. intros names.
      cbn [fmap list_fmap app clear_loop fst].
      unfold bind at 1. unfold try_except, bind at 1.
      rewrite remove_run, Hw. simpl dir_lookup.
      rewrite decide_True by done. rewrite <- Hw.
      destruct (removable x); [|done]. apply Hloop.
Qed.

(** C8.  [clear()] empties the directory and returns [True] when every
    removal succeeds; at the first entry whose removal fails it stops and
    returns [False]: the entries before it are gone, that entry and all
    later ones are untouched. *)
Theorem clear_stops_at_first_failure self w :
  NoDup (cache_dir w).*1 →
  (Forall (λ e, removable e.2) (cache_dir w) →
   (clear self w).1 = Ok true ∧ cache_dir (clear self w).2 = []) ∧
  (∀ pre n x post,
     cache_dir w = pre ++ (n, x) :: post →
     Forall (λ e, removable e.2) pre → ¬ removable x →
     (clear self w).1 = Ok false ∧
     cache_dir (clear self w).2 = (n, x) :: post).
Proof.
  intros Hnd. unfold clear, _list_dir, os_listdir, bind at 1 2 3 4.
  split.
  - intros Hrem.
    destruct (clear_loop_removable (cache_dir w) [] w)
      as (w1 & Hdir & Hloop); [by rewrite app_nil_r..|done|].
    rewrite <- (app_nil_r (cache_dir w).*1), Hloop. by simpl.
  - intros pre n x post Hw Hrem Hx.
    destruct (clear_loop_removable pre ((n, x) :: post) w)
      as (w1 & Hdir & Hloop); [done|by rewrite <- Hw|done|].
    rewrite Hw, fmap_app, Hloop.
    cbn [fmap list_fmap clear_loop fst].
    unfold bind, try_except. rewrite remove_run, Hdir, dir_lookup_head.
    destruct (removable x); [by destruct Hx|]. by simpl.
Qed.

Lemma clear_stops_at_first_failure_witness :
  ((clear small_cache world_with_four_files).1 = Ok true ∧
   cache_dir (clear small_cache world_with_four_files).2 = []) ∧
  ((clear small_cache world_with_blocked_clear).1 = Ok false ∧
   cache_dir (clear small_cache world_with_blocked_clear).2 =
     [ ("sub", Dir 2000); ("b.dat", File test_data 4000 mode_0o600) ]).
Proof.
  split.
  - apply (clear_stops_at_first_failure small_cache world_with_four_files).
    + by apply (bool_decide_unpack _).
    + repeat constructor.
  - apply (clear_stops_at_first_failure small_cache world_with_blocked_clear)
      with (pre := [ ("a.dat", File test_data 4000 mode_0o600) ]).
    + by apply (bool_decide_unpack _).
    + reflexivity.
    + repeat constructor.
    + simpl. auto.
Defined.

(** ** [put], step by step *)

Section MoreDirectory.
Implicit Types (d : list (string * node)) (n : string) (x : node).

Lemma dir_alter_absent f n d : n ∉ d.*1 → dir_alter f n d = d.
Proof.
  induction d as [|[m x] d IH]; [done|].
  change (dir_alter f n ((m, x) :: d))
    with ((if decide (m = n) then (m, f x) else (m, x))
            :: dir_alter f n d).
  simpl. rewrite not_elem_of_cons. intros [Hne Hd].
  rewrite decide_False by done. by rewrite IH.
Qed.

Lemma dir_alter_app f n d1 d2 :
  dir_alter f n (d1 ++ d2) = dir_alter f n d1 ++ dir_alter f n d2.
Proof. apply fmap_app. Qed.

Lemma dir_alter_alter f g n d :
  dir_alter g n (dir_alter f n d) = dir_alter (g ∘ f) n d.
Proof.
  unfold dir_alter. rewrite <- list_fmap_compose.
  apply list_fmap_ext. intros _ [m x] _. simpl.
  destruct (decide (m = n)); simpl;
    [by rewrite decide_True | by rewrite decide_False].
Qed.

Lemma dir_alter_store g n x d :
  dir_alter g n (dir_store n x d) = dir_store n (g x) d.
Proof.
  unfold dir_store. destruct (dir_lookup n d) eqn:Hn.
  - by rewrite dir_alter_alter.
  - rewrite dir_alter_app, dir_alter_absent by by apply dir_lookup_None.
    unfold dir_alter. simpl. by rewrite decide_True.
Qed.

(** Creating a fresh file and filling it. *)
Lemma dir_alter_fresh f n x d :
  dir_lookup n d = None →
  dir_alter f n (d ++ [(n, x)]) = d ++ [(n, f x)].
Proof.
  intros Hn. rewrite dir_alter_app, dir_alter_absent
    by by apply dir_lookup_None.
  unfold dir_alter. simpl. by rewrite decide_True.
Qed.

Lemma dir_lookup_fresh n x d :
  dir_lookup n d = None → dir_lookup n (d ++ [(n, x)]) = Some x.
Proof. intros Hn. by rewrite dir_lookup_app, Hn, dir_lookup_head. Qed.

Lemma dir_lookup_fresh_ne n n' x d :
  n ≠ n' → dir_lookup n' (d ++ [(n, x)]) = dir_lookup n' d.
Proof.
  intros Hne. rewrite dir_lookup_app. simpl. rewrite decide_False by done.
  by destruct (dir_lookup n' d).
Qed.

Lemma dir_unlink_fresh n x d :
  dir_lookup n d = None → dir_unlink n (d ++ [(n, x)]) = d.
Proof.
  intros Hn. rewrite dir_unlink_app, dir_unlink_head.
  rewrite dir_unlink_absent by by apply dir_lookup_None.
  apply app_nil_r.
Qed.

Lemma dir_store_fresh n x d :
  dir_lookup n d = None → dir_store n x d = d ++ [(n, x)].
Proof. unfold dir_store. by intros ->. Qed.

End MoreDirectory.

Lemma free_name_fresh suffix d draws tmp rest :
  free_name suffix d draws = Some (tmp, rest) →
  dir_lookup tmp d = None ∧ ∃ r, tmp = "tmp" +:+ r +:+ suffix.
Proof.
  induction draws as [|r draws IH]; simpl; [done|].
  destruct (dir_lookup ("tmp" +:+ r +:+ suffix) d) eqn:Hl; [done|].
  intros [= <- <-]. eauto.
Qed.

Lemma expiry_run self timeout w :
  expiry self timeout w = (Ok (expires_at self timeout (clock w)), w).
Proof.
  unfold expiry, expires_at.
  destruct timeout as [s|]; [|done]. by destruct (Qeq_bool s 0).
Qed.

(** The whole of [put], executed symbolically on the world [wp] the prune
    pass leaves: no free temporary name, a directory in the way of the
    rename, [expires] unassigned, or the entry published. *)
Lemma put_run self key data timeout w :
  ∃ wp,
    _prune self w = (Ok tt, wp) ∧
    cache_dir wp `sublist_of` cache_dir w ∧
    clock wp = clock w ∧
    put self key data timeout w =
    match free_name _fs_transaction_suffix (cache_dir wp) (entropy wp) with
    | None => (Ok None, with_entropy [] wp)
    | Some (tmp, rest) =>
        let fresh := File data (clock wp) mode_0o600 in
        match dir_lookup key (cache_dir wp) with
        | Some (Dir _) =>
            (Ok None,
             World (clock wp) (cache_dir wp ++ [(tmp, fresh)]) (outside wp)
               rest (trace wp ++ [SysCreate tmp; SysWrite tmp data]))
        | _ =>
            match expires_at self timeout (clock w) with
            | None =>
                (Raise UnboundLocalError,
                 World (clock wp) (dir_store key fresh (cache_dir wp))
                   (outside wp) rest
                   (trace wp ++ [SysCreate tmp; SysWrite tmp data;
                                 SysRename tmp key]))
            | Some e =>
                (Ok (Some key),
                 World (clock wp)
                   (dir_store key (File data (inject_Z e) (_mode self))
                      (cache_dir wp))
                   (outside wp) rest
                   (trace wp ++ [SysCreate tmp; SysWrite tmp data;
                                 SysRename tmp key; SysUtime key e;
                                 SysChmod key (_mode self)]))
            end
        end
    end.
Proof.
  destruct (prune_frame self w) as (wp & Hprune & Hsub & Hclk & _).
  exists wp. split_and!; [done..|].
  unfold put. rewrite (bind_ok _ _ _ _ _ (expiry_run self timeout w)).
  rewrite (bind_ok _ _ _ _ _ Hprune).
  unfold try_except_else, bind at 1, tempfile_mkstemp.
  destruct (free_name _ _ _) as [[tmp rest]|] eqn:Hfree; [|done].
  apply free_name_fresh in Hfree as [Hfresh _].
  unfold bind at 1, file_write. cbn [cache_dir logged with_entropy with_dir].
  rewrite dir_lookup_fresh by done.
  cbn [cache_dir logged with_entropy with_dir clock trace outside entropy].
  rewrite dir_alter_fresh by done.
  unfold bind at 1, os_rename.
  cbn [cache_dir logged with_entropy with_dir clock trace outside entropy].
  rewrite dir_lookup_fresh by done.
  set (fresh := File data (clock wp) mode_0o600).
  assert (∀ tr,
    (let* e := local (expires_at self timeout (clock w)) in
     let* _ := os_utime key e in os_chmod key (_mode self))
      (World (clock wp) (dir_store key fresh (cache_dir wp)) (outside wp)
         rest tr) =
    match expires_at self timeout (clock w) with
    | None =>
        (Raise UnboundLocalError,
         World (clock wp) (dir_store key fresh (cache_dir wp)) (outside wp)
           rest tr)
    | Some e =>
        (Ok tt,
         World (clock wp)
           (dir_store key (File data (inject_Z e) (_mode self)) (cache_dir wp))
           (outside wp) rest
           (tr ++ [SysUtime key e; SysChmod key (_mode self)]))
    end) as Htail.
  { intros tr. destruct (expires_at self timeout (clock w)) as [e|]; [|done].
    unfold local, bind, ret, os_utime, os_chmod.
    cbn [cache_dir logged with_entropy with_dir clock trace outside entropy].
    rewrite dir_lookup_store, decide_True by done. subst fresh. cbv iota beta.
    cbn [cache_dir logged with_entropy with_dir clock trace outside entropy].
    rewrite dir_alter_store, dir_lookup_store, decide_True by done.
    cbv iota beta. rewrite dir_alter_store.
    unfold logged, with_dir.
    cbn [cache_dir clock trace outside entropy].
    by rewrite <- app_assoc. }
  destruct (decide (tmp = key)) as [->|Hne].
  - rewrite Hfresh. world_simpl.
    rewrite <- (dir_store_fresh key fresh) by done.
    rewrite Htail.
    destruct (expires_at self timeout (clock w)) as [e|]; simpl;
      by rewrite <- !app_assoc.
  - rewrite dir_lookup_fresh_ne by done.
    destruct (dir_lookup key (cache_dir wp)) as [[c m md|m|]|] eqn:Hkey;
      world_simpl; [|simpl; by rewrite <- !app_assoc|..];
      rewrite dir_unlink_fresh by done; rewrite Htail;
      destruct (expires_at self timeout (clock w)) as [e|]; simpl;
      by rewrite <- !app_assoc.
Qed.

(** What a [put] that returns a path has done: the path is the key, and
    the key holds the payload, stamped with the expiry instant and the
    configured mode. *)
Lemma put_publishes self key data timeout w p w1 :
  put self key data timeout w = (Ok (Some p), w1) →
  p = key ∧
  ∃ e, expires_at self timeout (clock w) = Some e ∧
       dir_lookup key (cache_dir w1)
         = Some (File data (inject_Z e) (_mode self)).
Proof.
  destruct (put_run self key data timeout w) as (wp & _ & _ & _ & ->).
  destruct (free_name _ _ _) as [[tmp rest]|]; [|done].
  destruct (dir_lookup key (cache_dir wp)) as [[c m md|m|]|];
    destruct (expires_at self timeout (clock w)) as [e|]; try done;
    intros [= <- <-]; (split; [done|]); exists e; (split; [done|]);
    cbn [cache_dir]; by rewrite dir_lookup_store, decide_True.
Qed.

(** [put] does return a path: below the pruning threshold it is enough
    that the next temporary name drawn is free, that the key does not name
    a sub-directory, and that the timeout is not zero. *)
Lemma put_succeeds self key data timeout w tmp rest e :
  (Z.of_nat (length (cache_dir w)) <= _threshold self)%Z →
  free_name _fs_transaction_suffix (cache_dir w) (entropy w)
    = Some (tmp, rest) →
  (∀ m, dir_lookup key (cache_dir w) ≠ Some (Dir m)) →
  expires_at self timeout (clock w) = Some e →
  (put self key data timeout w).1 = Ok (Some key).
Proof.
  intros Hle Hfree Hkey He.
  destruct (put_run self key data timeout w) as (wp & Hp & _ & _ & ->).
  rewrite prune_unfold, Z.gtb_ltb, (proj2 (Z.ltb_ge _ _)) in Hp by lia.
  injection Hp as <-. rewrite Hfree, He.
  destruct (dir_lookup key (cache_dir w)) as [[c m md|m|]|] eqn:Hk;
    try done.
  by destruct (Hkey m).
Qed.

(** C1.  If [put(key, payload)] returns a path and [get(key)] is called
    next, at an instant [t] not after the entry's stored expiry instant,
    then [get] returns that path and the file at the path holds exactly
    the payload. *)
Theorem put_then_get_round_trip self key data timeout w p w1 t m :
  put self key data timeout w = (Ok (Some p), w1) →
  (os_path_getmtime key w1).1 = Ok m →
  (t <= m)%Q →
  get self key (with_clock t w1) = (Ok (Some p), with_clock t w1) ∧
  read_file p (with_clock t w1) = Some data.
Proof.
  intros Hput Hm Ht.
  apply put_publishes in Hput as (-> & e & _ & Hkey).
  rewrite getmtime_run, Hkey in Hm. simpl in Hm. injection Hm as <-.
  split.
  - rewrite get_run. cbn [with_clock cache_dir clock]. rewrite Hkey. simpl.
    by rewrite (proj2 (Qle_bool_iff _ _) Ht).
  - unfold read_file. cbn [with_clock cache_dir]. by rewrite Hkey.
Qed.

Lemma put_then_get_round_trip_witness :
  get default_cache "test.dat"
    (with_clock 1001
       (put default_cache "test.dat" test_data None empty_world).2)
  = (Ok (Some "test.dat"),
     with_clock 1001
       (put default_cache "test.dat" test_data None empty_world).2) ∧
  read_file "test.dat"
    (with_clock 1001
       (put default_cache "test.dat" test_data None empty_world).2)
  = Some test_data.
Proof.
  apply (put_then_get_round_trip default_cache "test.dat" test_data None
           empty_world "test.dat" _ 1001%Q 4000%Q).
  - by vm_compute.
  - by vm_compute.
  - by vm_compute.
Defined.

(** ** Transient files *)

Lemma endswith_app prefix suffix : endswith (prefix +:+ suffix) suffix = true.
Proof.
  induction prefix as [|c prefix IH]; simpl.
  - change (endswith suffix suffix = true).
    destruct suffix; simpl; [done | by rewrite decide_True].
  - case_decide; [done|]. exact IH.
Qed.

Lemma free_name_transient d draws tmp rest :
  free_name _fs_transaction_suffix d draws = Some (tmp, rest) →
  transient tmp = true.
Proof.
  intros (_ & r & ->)%free_name_fresh. unfold transient.
  replace ("tmp" +:+ r +:+ _fs_transaction_suffix)
    with (("tmp" +:+ r) +:+ _fs_transaction_suffix) by done.
  apply endswith_app.
Qed.



(** ** [put_file], step by step *)

Lemma put_file_run self path timeout w :
  ∃ wp,
    _prune self w = (Ok tt, wp) ∧
    cache_dir wp `sublist_of` cache_dir w ∧
    clock wp = clock w ∧
    put_file self path timeout w =
    let dst := os_path_basename path in
    match outside wp !! path with
    | Some (File data _ smode) =>
        if decide (dst = "") then (Ok None, wp)
        else match dir_lookup dst (cache_dir wp) with
             | Some (Dir _) | Some BrokenLink => (Ok None, wp)
             | Some (File _ _ _) | None =>
                 match expires_at self timeout (clock w) with
                 | None =>
                     (Raise UnboundLocalError,
                      World (clock wp)
                        (dir_store dst (File data (clock wp) smode)
                           (cache_dir wp))
                        (outside wp) (entropy wp)
                        (trace wp ++ [SysOpenTrunc dst; SysWrite dst data;
                                      SysChmod dst smode]))
                 | Some e =>
                     (Ok (Some dst),
                      World (clock wp)
                        (dir_store dst (File data (inject_Z e) (_mode self))
                           (cache_dir wp))
                        (outside wp) (entropy wp)
                        (trace wp ++ [SysOpenTrunc dst; SysWrite dst data;
                                      SysChmod dst smode; SysUtime dst e;
                                      SysChmod dst (_mode self)]))
                 end
             end
    | _ => (Ok None, wp)
    end.
Proof.
  destruct (prune_frame self w) as (wp & Hprune & Hsub & Hclk & _).
  exists wp. split_and!; [done..|].
  unfold put_file. rewrite (bind_ok _ _ _ _ _ (expiry_run self timeout w)).
  rewrite (bind_ok _ _ _ _ _ Hprune).
  set (dst := os_path_basename path). cbv zeta.
  unfold try_except_else, bind at 1, shutil_copy. fold dst.
  destruct (outside wp !! path) as [[data sm smode|?|]|]; try done.
  unfold bind at 1, open_wb.
  destruct (decide (dst = "")) as [?|_]; [done|].
  assert (∀ md0 tr,
    (let* a := (let* _ := file_write dst data in
                let* _ := os_chmod dst smode in ret dst) in
     let* e := local (expires_at self timeout (clock w)) in
     let* _ := os_utime a e in
     let* _ := os_chmod a (_mode self) in ret a)
      (World (clock wp)
         (dir_store dst (File [] (clock wp) md0) (cache_dir wp))
         (outside wp) (entropy wp) tr) =
    match expires_at self timeout (clock w) with
    | None =>
        (Raise UnboundLocalError,
         World (clock wp)
           (dir_store dst (File data (clock wp) smode) (cache_dir wp))
           (outside wp) (entropy wp)
           (tr ++ [SysWrite dst data; SysChmod dst smode]))
    | Some e =>
        (Ok dst,
         World (clock wp)
           (dir_store dst (File data (inject_Z e) (_mode self))
              (cache_dir wp))
           (outside wp) (entropy wp)
           (tr ++ [SysWrite dst data; SysChmod dst smode; SysUtime dst e;
                   SysChmod dst (_mode self)]))
    end) as Htail.
  { intros md0 tr.
    unfold bind, ret, file_write, os_chmod, os_utime, local.
    repeat (cbv iota beta; cbn [set_mtime set_mode]; world_simpl;
            first [ rewrite dir_lookup_store, decide_True by done
                  | rewrite dir_alter_store ]).
    destruct (expires_at self timeout (clock w)) as [e|];
      [|unfold raise; by rewrite <- !app_assoc].
    unfold ret.
    repeat (cbv iota beta; cbn [set_mtime set_mode]; world_simpl;
            first [ rewrite dir_lookup_store, decide_True by done
                  | rewrite dir_alter_store ]).
    by rewrite <- !app_assoc. }
  destruct (dir_lookup dst (cache_dir wp)) as [[c m md|?|]|] eqn:Hdst;
    try done.
  - world_simpl.
    replace (dir_alter (λ _, File [] (clock wp) md) dst (cache_dir wp))
      with (dir_store dst (File [] (clock wp) md) (cache_dir wp))
      by (unfold dir_store; by rewrite Hdst).
    unfold bind in Htail |- *. rewrite Htail.
    destruct (expires_at self timeout (clock w)); by rewrite <- !app_assoc.
  - world_simpl. rewrite <- (dir_store_fresh dst) by done.
    unfold bind in Htail |- *. rewrite Htail.
    destruct (expires_at self timeout (clock w)); by rewrite <- !app_assoc.
Qed.




(** ** The zero timeout *)

(** With an explicit timeout of zero neither branch assigns [expires]: a
    call that would otherwise have returned a path raises instead, after
    the content has been put in place. *)
Lemma put_zero_timeout self key data w :
  (put self key data (Some 0%Q) w).1 =
  match (put self key data None w).1 with
  | Ok (Some _) => Raise UnboundLocalError
  | r => r
  end.
Proof.
  destruct (put_run self key data (Some 0%Q) w) as (wp & Hp & _ & _ & ->).
  destruct (put_run self key data None w) as (wp' & Hp' & _ & _ & ->).
  rewrite Hp in Hp'. injection Hp' as <-.
  destruct (free_name _ _ _) as [[tmp rest]|]; [|done].
  by destruct (dir_lookup key (cache_dir wp)) as [[c m md|m|]|].
Qed.

(** C2, at the failing input.  [put] and [put_file] called with
    [timeout=0] on a healthy cache raise [UnboundLocalError] out of the
    operation instead of returning a path or the failure sentinel. *)
Theorem zero_timeout_raises :
  (put default_cache "test.dat" test_data (Some 0%Q) empty_world).1
    = Raise UnboundLocalError ∧
  (put_file default_cache "/tmp/test.dat" (Some 0%Q) world_with_source).1
    = Raise UnboundLocalError ∧
  read_file "test.dat"
    (put default_cache "test.dat" test_data (Some 0%Q) empty_world).2
    = Some test_data.
Proof. by vm_compute. Qed.

(** ** How content reaches the key *)

(** [put] stages the payload in a file of the reserved suffix and
    publishes it by a rename; the key itself is never opened for
    writing. *)
Lemma put_stages_then_renames self key data timeout w p w1 :
  put self key data timeout w = (Ok (Some p), w1) →
  ∃ wp tmp e,
    _prune self w = (Ok tt, wp) ∧ transient tmp = true ∧
    trace w1 = trace wp ++ [SysCreate tmp; SysWrite tmp data;
                            SysRename tmp key; SysUtime key e;
                            SysChmod key (_mode self)].
Proof.
  destruct (put_run self key data timeout w) as (wp & Hp & _ & _ & ->).
  destruct (free_name _ _ _) as [[tmp rest]|] eqn:Hfree; [|done].
  apply free_name_transient in Hfree.
  destruct (dir_lookup key (cache_dir wp)) as [[c m md|m|]|];
    destruct (expires_at self timeout (clock w)) as [e|]; try done;
    intros [= <- <-]; by exists wp, tmp, e.
Qed.

(** [put_file] opens the destination itself, truncating it, and writes
    the source's bytes into it: there is no staging file and no rename. *)
Lemma put_file_writes_in_place self path timeout w p w1 :
  put_file self path timeout w = (Ok (Some p), w1) →
  ∃ wp data smode e,
    _prune self w = (Ok tt, wp) ∧ p = os_path_basename path ∧
    trace w1 = trace wp ++ [SysOpenTrunc p; SysWrite p data;
                            SysChmod p smode; SysUtime p e;
                            SysChmod p (_mode self)].
Proof.
  destruct (put_file_run self path timeout w) as (wp & Hp & _ & _ & ->).
  cbv zeta.
  destruct (outside wp !! path) as [[data sm smode|?|]|]; try done.
  destruct (decide (os_path_basename path = "")); [done|].
  destruct (dir_lookup _ (cache_dir wp)) as [[c m md|?|]|]; try done;
    destruct (expires_at self timeout (clock w)) as [e|]; try done;
    intros [= <- <-]; by exists wp, data, smode, e.
Qed.

(** C6, at the failing input.  Copying [/tmp/test.dat] into an empty cache
    succeeds without any temporary file or rename: the destination is
    opened for writing and filled in place, and right after the open it is
    visible under its key with no content at all. *)
Theorem put_file_bypasses_atomic_write :
  (put_file default_cache "/tmp/test.dat" None world_with_source).1
    = Ok (Some "test.dat") ∧
  trace (put_file default_cache "/tmp/test.dat" None world_with_source).2
    = [ SysOpenTrunc "test.dat"; SysWrite "test.dat" test_data;
        SysChmod "test.dat" mode_0o644; SysUtime "test.dat" 4000;
        SysChmod "test.dat" mode_0o600 ] ∧
  read_file "test.dat" (open_wb "test.dat" world_with_source).2 = Some [].
Proof. by vm_compute. Qed.

(** ** Construction *)

(** Built without arguments on an application that configures nothing,
    the cache is the one the sample worlds are run with. *)
Lemma default_instance :
  Config.as_FileCache
    (Config.configured ∅ Config.PNone Config.PNone Config.PNone Config.PNone)
  = Some default_cache.
Proof. by vm_compute. Qed.

Lemma set_if_falsy v name (self : gmap string Config.pyval) :
  Config.truthy v = false → Config.set_if v name self = self.
Proof. unfold Config.set_if. by intros ->. Qed.

Lemma set_if_lookup_ne v name (self : gmap string Config.pyval) k :
  name ≠ k → Config.set_if v name self !! k = self !! k.
Proof.
  intros Hne. unfold Config.set_if.
  destruct (Config.truthy v); [by rewrite lookup_insert_ne | done].
Qed.

(** Passing the application to the constructor is the same as calling
    [init_app] on the fresh instance. *)
Lemma init_with_app config cache_dir threshold timeout mode :
  (Config.__init__ (Some config) cache_dir threshold timeout mode).1 =
  Config.configured config cache_dir threshold timeout mode.
Proof.
  unfold Config.configured, Config.__init__.
  by destruct (Config.init_app _ config).
Qed.

(** An argument the constructor does not take over leaves the attribute
    to [init_app], which reads it from the application's [config]. *)
Lemma configured_default config cache_dir threshold timeout mode name key :
  (name, key) ∈ [ ("_path", "FILECACHE_DIR");
                  ("_threshold", "FILECACHE_THRESHOLD");
                  ("_timeout", "FILECACHE_TIMEOUT");
                  ("_mode", "FILECACHE_MODE") ] →
  (Config.__init__ None cache_dir threshold timeout mode).1 !! name = None →
  Config.configured config cache_dir threshold timeout mode !! name
    = Some (Config.config_value config key).
Proof.
  intros Hin Hnone. unfold Config.configured, Config.config_value.
  set (self := (Config.__init__ None cache_dir threshold timeout mode).1)
    in *.
  unfold Config.init_app. cbn [fst snd].
  set (cfg := foldl _ config Config.DEFAULT_CONFIG).
  unfold Config.getattr.
  repeat (apply elem_of_cons in Hin as [[= -> ->]|Hin]);
    [..|by apply elem_of_nil in Hin];
    repeat (first [ rewrite lookup_insert_eq
                  | rewrite lookup_insert_ne by done ]);
    by rewrite Hnone.
Qed.

(** C10.  A constructor argument that is zero (or an empty string, or any
    other value Python takes for false) is not stored; after [init_app]
    the attribute holds what the application's [config] gives for it, its
    own setting or the default.  The instance is the one a constructor
    call without that argument yields. *)
Theorem falsy_constructor_arguments_are_ignored
    config cache_dir threshold timeout mode :
  let self := Config.configured config cache_dir threshold timeout mode in
  (Config.truthy cache_dir = false →
   self !! "_path" = Some (Config.config_value config "FILECACHE_DIR") ∧
   self = Config.configured config Config.PNone threshold timeout mode) ∧
  (Config.truthy threshold = false →
   self !! "_threshold"
     = Some (Config.config_value config "FILECACHE_THRESHOLD") ∧
   self = Config.configured config cache_dir Config.PNone timeout mode) ∧
  (Config.truthy timeout = false →
   self !! "_timeout"
     = Some (Config.config_value config "FILECACHE_TIMEOUT") ∧
   self = Config.configured config cache_dir threshold Config.PNone mode) ∧
  (Config.truthy mode = false →
   self !! "_mode" = Some (Config.config_value config "FILECACHE_MODE") ∧
   self = Config.configured config cache_dir threshold timeout Config.PNone).
Proof.
  intros self. subst self.
  split_and!; intros Hf; (split;
    [ apply configured_default; [set_solver|];
      unfold Config.__init__; cbn [fst];
      repeat first [ rewrite set_if_lookup_ne by done
                   | rewrite (set_if_falsy _ _ _ Hf) ];
      apply lookup_empty
    | unfold Config.configured, Config.__init__; cbn [fst];
      rewrite (set_if_falsy _ _ _ Hf);
      by rewrite (set_if_falsy Config.PNone) ]).
Qed.

Lemma falsy_constructor_arguments_are_ignored_witness :
  Config.configured ∅ (Config.PStr "") (Config.PInt 0) (Config.PInt 0)
    (Config.PInt 0) !! "_path"
    = Some (Config.PStr "/tmp/flask-filecache.cache_dir") ∧
  Config.configured ∅ (Config.PStr "") (Config.PInt 0) (Config.PInt 0)
    (Config.PInt 0) !! "_threshold" = Some (Config.PInt 500) ∧
  Config.configured ∅ (Config.PStr "") (Config.PInt 0) (Config.PInt 0)
    (Config.PInt 0) !! "_timeout" = Some (Config.PInt 3000) ∧
  Config.configured ∅ (Config.PStr "") (Config.PInt 0) (Config.PInt 0)
    (Config.PInt 0) !! "_mode" = Some (Config.PInt 384).
Proof.
  destruct (falsy_constructor_arguments_are_ignored ∅ (Config.PStr "")
              (Config.PInt 0) (Config.PInt 0) (Config.PInt 0))
    as (Hp & Hth & Hto & Hm).
  destruct (Hp eq_refl) as [-> _], (Hth eq_refl) as [-> _],
    (Hto eq_refl) as [-> _], (Hm eq_refl) as [-> _].
  by vm_compute.
Defined.

(** * Further properties of the methods *)

(** ** [delete] *)

Lemma delete_run self key w :
  delete self key w =
  match dir_lookup key (cache_dir w) with
  | Some x =>
      if removable x
      then (Ok true,
            logged (SysUnlink key)
              (with_dir (dir_unlink key (cache_dir w)) w))
      else (Ok false, w)
  | None => (Ok false, w)
  end.
Proof.
  unfold delete, try_except_else. rewrite remove_run.
  destruct (dir_lookup key (cache_dir w)) as [x|]; [|done].
  by destruct (removable x).
Qed.

(** X1.  [delete(key)] answers [True] exactly when the key names something
    [os.remove] accepts, and then the key is gone; when it answers [False]
    (no such entry, or a sub-directory) the world is untouched; in either
    case no other name in the directory is affected. *)
Theorem delete_removes_only_its_key self key w :
  ((delete self key w).1 = Ok true ↔
   ∃ x, dir_lookup key (cache_dir w) = Some x ∧ removable x) ∧
  ((delete self key w).1 = Ok true →
   dir_lookup key (cache_dir (delete self key w).2) = None) ∧
  ((delete self key w).1 = Ok false → (delete self key w).2 = w) ∧
  (∀ k, k ≠ key →
     dir_lookup k (cache_dir (delete self key w).2)
       = dir_lookup k (cache_dir w)).
Proof.
  rewrite delete_run.
  destruct (dir_lookup key (cache_dir w)) as [x|] eqn:Hk;
    [destruct (removable x) eqn:Hx|]; simpl.
  - split_and!.
    + split; [|done]. intros _. exists x. by rewrite Hx.
    + intros _. apply dir_lookup_unlink_eq.
    + done.
    + intros k Hne. by apply dir_lookup_unlink_ne.
  - split_and!; [|done..].
    split; [done|]. intros (x' & [= <-] & Hx'). by rewrite Hx in Hx'.
  - split_and!; [|done..].
    split; [done|]. by intros (x' & ? & _).
Qed.

Lemma delete_removes_only_its_key_witness :
  dir_lookup "c.dat"
    (cache_dir (delete small_cache "c.dat" world_with_four_files).2) = None ∧
  dir_lookup "a.dat"
    (cache_dir (delete small_cache "c.dat" world_with_four_files).2)
  = Some (File test_data 4000 mode_0o600) ∧
  (delete small_cache "sub" world_with_subdir).2 = world_with_subdir.
Proof.
  destruct (delete_removes_only_its_key small_cache "c.dat"
              world_with_four_files) as (_ & Hgone & _ & Hframe).
  destruct (delete_removes_only_its_key small_cache "sub" world_with_subdir)
    as (_ & _ & Hsame & _).
  split_and!.
  - apply Hgone. reflexivity.
  - by rewrite (Hframe "a.dat").
  - apply Hsame. reflexivity.
Defined.

(** ** What never escapes *)

Lemma clear_loop_returns names :
  ∀ w, ∃ b w', clear_loop names w = (Ok b, w') ∧
               cache_dir w' `sublist_of` cache_dir w.
Proof.
  induction names as [|n names IH]; intros w; cbn [clear_loop].
  - by exists true, w.
  - unfold bind, try_except. rewrite remove_run.
    destruct (dir_lookup n (cache_dir w)) as [x|]; [|by exists false, w].
    destruct (removable x); [|by exists false, w].
    unfold ret. cbv iota beta.
    match goal with |- context [clear_loop names ?w1] =>
      destruct (IH w1) as (b & w' & -> & Hsub) end.
    exists b, w'. split; [done|].
    etrans; [exact Hsub|]. apply dir_unlink_sublist.
Qed.




(** ** More on the prune pass *)


Lemma succ_mod_3 (i : nat) :
  ((i mod 3 = 0 ∧ S i mod 3 = 1) ∨ (i mod 3 = 1 ∧ S i mod 3 = 2) ∨
   (i mod 3 = 2 ∧ S i mod 3 = 0))%nat.
Proof.
  pose proof (Nat.div_mod_eq i 3) as Hi.
  pose proof (Nat.mod_upper_bound i 3) as Hlt.
  assert (i mod 3 = 0 ∨ i mod 3 = 1 ∨ i mod 3 = 2) as [H|[H|H]] by lia.
  - left. split; [done|].
    symmetry. apply (Nat.mod_unique _ _ (i / 3)); lia.
  - right. left. split; [done|].
    symmetry. apply (Nat.mod_unique _ _ (i / 3)); lia.
  - right. right. split; [done|].
    symmetry. apply (Nat.mod_unique _ _ (S (i / 3))); lia.
Qed.

(** Of any three consecutive positions one is a multiple of three, so at
    most two thirds of a listing survive a complete pass. *)
Lemma survivors_bound now d :
  Forall (λ e, is_file e.2) d →
  ∀ i, (3 * length (survivors now i d)
          + match i mod 3 with 0 => 2 | 1 => 0 | _ => 1 end
        ≤ 2 * length d + 2)%nat.
Proof.
  induction 1 as [|[n x] d Hx _ IH]; intros i; cbn [survivors length].
  - destruct (i mod 3) as [|[|?]]; lia.
  - specialize (IH (S i)). destruct x as [c m md| |]; try done.
    unfold evict. cbn [snd stored_expiry].
    destruct (succ_mod_3 i) as [[Hi HS]|[[Hi HS]|[Hi HS]]];
      rewrite Hi; rewrite HS in IH.
    + rewrite orb_true_r. lia.
    + destruct (Qlt_bool m now || _); cbn [length]; lia.
    + destruct (Qlt_bool m now || _); cbn [length]; lia.
Qed.

(** X5.  Over a directory of regular files with more than [threshold]
    entries, a prune pass leaves at most two thirds of the entries, even
    when none of them has expired. *)
Theorem prune_evicts_at_least_a_third self w :
  NoDup (cache_dir w).*1 →
  Forall (λ e, is_file e.2) (cache_dir w) →
  (Z.of_nat (length (cache_dir w)) > _threshold self)%Z →
  (3 * length (cache_dir (_prune self w).2) ≤ 2 * length (cache_dir w))%nat.
Proof.
  intros Hnd Hreg Hover.
  rewrite prune_unfold, (proj2 (Z.gtb_gt _ _)) by lia.
  unfold try_except.
  destruct (prune_loop_regular (clock w) (cache_dir w) 0 [] [] w)
    as (w1 & -> & Hdir & _); [by rewrite app_nil_r..|done|].
  cbn [snd]. rewrite Hdir, app_nil_r, app_nil_l.
  pose proof (survivors_bound (clock w) (cache_dir w) Hreg 0) as Hb.
  change (0 mod 3)%nat with 0%nat in Hb. cbv iota in Hb. lia.
Qed.

Lemma prune_evicts_at_least_a_third_witness :
  (3 * length (cache_dir (_prune small_cache world_with_four_files).2)
   ≤ 8)%nat.
Proof.
  apply (prune_evicts_at_least_a_third small_cache world_with_four_files).
  - by apply (bool_decide_unpack _).
  - repeat constructor.
  - by vm_compute.
Defined.

(** ** More on validation *)

(** X6.  Validation settles at once: a second [get] (or [has]) of the same
    key at the same instant gives the answer of the first and changes
    nothing further. *)
Theorem validation_is_idempotent self key w :
  get self key (get self key w).2 = get self key w ∧
  has self key (has self key w).2 = has self key w.
Proof.
  split.
  - rewrite (get_run self key w).
    destruct (dir_lookup key (cache_dir w)) as [x|] eqn:Hk;
      [|cbn [snd]; by rewrite get_run, Hk].
    destruct (stored_expiry x) as [m|] eqn:Hm;
      [|cbn [snd]; by rewrite get_run, Hk, Hm].
    destruct (Qle_bool (clock w) m) eqn:Hle;
      [cbn [snd]; by rewrite get_run, Hk, Hm, Hle|].
    destruct (removable x) eqn:Hx; cbn [snd].
    + rewrite get_run. world_simpl. by rewrite dir_lookup_unlink_eq.
    + by rewrite get_run, Hk, Hm, Hle, Hx.
  - rewrite (has_run self key w).
    destruct (dir_lookup key (cache_dir w)) as [x|] eqn:Hk;
      [|cbn [snd]; by rewrite has_run, Hk].
    destruct (stored_expiry x) as [m|] eqn:Hm;
      [|cbn [snd]; by rewrite has_run, Hk, Hm].
    destruct (Qle_bool (clock w) m) eqn:Hle;
      [cbn [snd]; by rewrite has_run, Hk, Hm, Hle|].
    destruct (removable x) eqn:Hx; cbn [snd].
    + rewrite has_run. world_simpl. by rewrite dir_lookup_unlink_eq.
    + by rewrite has_run, Hk, Hm, Hle, Hx.
Qed.

(** X7.  Validating one key never touches another: after [get(key)] or
    [has(key)], hit or miss, every other name in the directory holds what
    it held before. *)
Theorem validation_leaves_other_keys self key k w :
  k ≠ key →
  dir_lookup k (cache_dir (get self key w).2) = dir_lookup k (cache_dir w) ∧
  dir_lookup k (cache_dir (has self key w).2) = dir_lookup k (cache_dir w).
Proof.
  intros Hne. rewrite get_run, has_run.
  destruct (dir_lookup key (cache_dir w)) as [x|]; [|done].
  destruct (stored_expiry x) as [m|]; [|done].
  destruct (Qle_bool (clock w) m); [done|].
  destruct (removable x); [|done].
  simpl. by rewrite dir_lookup_unlink_ne.
Qed.

Lemma validation_leaves_other_keys_witness :
  dir_lookup "a.dat"
    (cache_dir (get small_cache "c.dat" world_with_four_files).2)
  = Some (File test_data 4000 mode_0o600).
Proof.
  by destruct (validation_leaves_other_keys small_cache "c.dat" "a.dat"
                 world_with_four_files) as [-> _].
Defined.

(** ** More on [put] *)

Lemma prune_below_threshold self w :
  (Z.of_nat (length (cache_dir w)) <= _threshold self)%Z →
  _prune self w = (Ok tt, w).
Proof.
  intros Hle. by rewrite prune_unfold, Z.gtb_ltb, (proj2 (Z.ltb_ge _ _)).
Qed.




(** X9.  While the directory is within the threshold, a [put] that does
    not fail changes nothing but its own key: every other name holds what
    it held before. *)
Theorem put_leaves_other_keys self key data timeout w k :
  (Z.of_nat (length (cache_dir w)) <= _threshold self)%Z →
  (put self key data timeout w).1 ≠ Ok None →
  k ≠ key →
  dir_lookup k (cache_dir (put self key data timeout w).2)
    = dir_lookup k (cache_dir w).
Proof.
  intros Hle Hr Hne. revert Hr.
  destruct (put_run self key data timeout w) as (wp & Hp & _ & _ & ->).
  rewrite prune_below_threshold in Hp by done. injection Hp as <-.
  destruct (free_name _ _ _) as [[tmp rest]|]; [|done].
  destruct (dir_lookup key (cache_dir w)) as [[c m md|m|]|]; try done;
    destruct (expires_at self timeout (clock w)) as [e|]; intros _;
    cbn [snd cache_dir]; by rewrite dir_lookup_store, decide_False.
Qed.

Lemma put_leaves_other_keys_witness :
  dir_lookup "old.dat"
    (cache_dir
       (put default_cache "new.dat" [] None world_with_subdir).2)
  = Some (File test_data 10 mode_0o600).
Proof.
  by rewrite (put_leaves_other_keys default_cache "new.dat" [] None
                world_with_subdir "old.dat").
Defined.



(** X11.  An entry just written can be deleted: after a [put] that
    returned a path, [delete(key)] answers [True], and after that
    [get(key)] and [has(key)] miss. *)
Theorem put_then_delete self key data timeout w p w1 :
  put self key data timeout w = (Ok (Some p), w1) →
  (delete self key w1).1 = Ok true ∧
  (get self key (delete self key w1).2).1 = Ok None ∧
  (has self key (delete self key w1).2).1 = Ok false.
Proof.
  intros (-> & e & _ & Hkey)%put_publishes.
  rewrite delete_run, Hkey. cbn [removable fst snd].
  rewrite get_run, has_run. world_simpl.
  by rewrite dir_lookup_unlink_eq.
Qed.

Lemma put_then_delete_witness :
  (delete default_cache "test.dat"
     (put default_cache "test.dat" test_data None empty_world).2).1
  = Ok true.
Proof.
  apply (put_then_delete default_cache "test.dat" test_data None
           empty_world "test.dat"). by vm_compute.
Defined.



(** ** More on [put_file] *)









(** ** More on [clear] *)

Lemma clear_loop_success names :
  ∀ w w', clear_loop names w = (Ok true, w') →
          ∀ n, n ∈ names → n ∉ (cache_dir w').*1.
Proof.
  induction names as [|f names IH]; intros w w' Hrun n Hn;
    [by apply elem_of_nil in Hn|].
  cbn [clear_loop] in Hrun. unfold bind, try_except in Hrun.
  rewrite remove_run in Hrun.
  destruct (dir_lookup f (cache_dir w)) as [x|]; [|done].
  destruct (removable x); [|done].
  unfold ret in Hrun. cbv iota beta in Hrun.
  apply elem_of_cons in Hn as [->|Hn]; [|by eapply IH].
  destruct (clear_loop_returns names
              (logged (SysUnlink f)
                 (with_dir (dir_unlink f (cache_dir w)) w)))
    as (b & w'' & Hrun' & Hsub).
  rewrite Hrun in Hrun'. injection Hrun' as <- <-.
  intros Hin. eapply elem_of_sublist in Hin; [|by apply names_sublist].
  revert Hin. world_simpl. apply dir_lookup_None, dir_lookup_unlink_eq.
Qed.

Lemma clear_unfold self w : clear self w = clear_loop (cache_dir w).*1 w.
Proof. done. Qed.

(** X16.  When [clear()] answers [True] the directory is empty, and every
    key misses afterwards. *)
Theorem clear_success_empties self w :
  (clear self w).1 = Ok true →
  cache_dir (clear self w).2 = [] ∧
  ∀ key, (has self key (clear self w).2).1 = Ok false ∧
         (get self key (clear self w).2).1 = Ok None.
Proof.
  rewrite clear_unfold.
  destruct (clear_loop_returns (cache_dir w).*1 w) as (b & w' & Hrun & Hsub).
  rewrite Hrun. cbn [fst snd]. intros [= ->].
  assert (cache_dir w' = []) as Hempty.
  { destruct (cache_dir w') as [|[n x] d] eqn:Hd; [done|].
    destruct (clear_loop_success _ _ _ Hrun n).
    - eapply elem_of_sublist; [|apply names_sublist, Hsub]. left.
    - rewrite Hd. left. }
  split; [done|]. intros key.
  by rewrite has_run, get_run, Hempty.
Qed.

Lemma clear_success_empties_witness :
  cache_dir (clear small_cache world_with_four_files).2 = [] ∧
  (has small_cache "a.dat" (clear small_cache world_with_four_files).2).1
  = Ok false.
Proof.
  destruct (clear_success_empties small_cache world_with_four_files)
    as [Hdir Hmiss]; [by vm_compute|].
  split; [done|]. apply Hmiss.
Defined.

(** ** Invariants of the directory *)

Lemma dir_store_length n x (d : list (string * node)) :
  (length (dir_store n x d) ≤ S (length d))%nat.
Proof.
  unfold dir_store, dir_alter. destruct (dir_lookup n d).
  - rewrite length_fmap. lia.
  - rewrite length_app. simpl. lia.
Qed.


(** X17.  A write grows the directory by one entry at most: after [put]
    or [put_file], whatever they return, the listing is no longer than
    the old one plus one. *)
Theorem writes_add_at_most_one_entry self key data path timeout w :
  (length (cache_dir (put self key data timeout w).2)
   ≤ S (length (cache_dir w)))%nat ∧
  (length (cache_dir (put_file self path timeout w).2)
   ≤ S (length (cache_dir w)))%nat.
Proof.
  destruct (put_run self key data timeout w) as (wp & Hp & Hsub & _ & ->).
  destruct (put_file_run self path timeout w) as (wp' & Hp' & _ & _ & ->).
  rewrite Hp in Hp'. injection Hp' as <-. cbv zeta.
  apply sublist_length in Hsub.
  split.
  - destruct (free_name _ _ _) as [[tmp rest]|]; [|simpl; lia].
    pose proof (dir_store_length key
                  (File data (clock wp) mode_0o600) (cache_dir wp)).
    destruct (dir_lookup key (cache_dir wp)) as [[]|];
      destruct (expires_at self timeout (clock w)) as [e|];
      cbn [snd cache_dir];
      rewrite ?length_app; simpl;
      try pose proof (dir_store_length key
                        (File data (inject_Z e) (_mode self)) (cache_dir wp));
      lia.
  - destruct (outside wp !! path) as [[d m smode|?|]|]; try (simpl; lia).
    case_decide; [simpl; lia|].
    destruct (dir_lookup _ (cache_dir wp)) as [[]|]; try (simpl; lia);
      destruct (expires_at self timeout (clock w)) as [e|];
      cbn [snd cache_dir];
      match goal with |- (length (dir_store ?n ?x ?l) ≤ _)%nat =>
        pose proof (dir_store_length n x l) end; lia.
Qed.



(** ** More on construction *)

Lemma configured_attr config cache_dir threshold timeout mode name key :
  (name, key) ∈ [ ("_path", "FILECACHE_DIR");
                  ("_threshold", "FILECACHE_THRESHOLD");
                  ("_timeout", "FILECACHE_TIMEOUT");
                  ("_mode", "FILECACHE_MODE") ] →
  Config.configured config cache_dir threshold timeout mode !! name
    = Some (default (Config.config_value config key)
              ((Config.__init__ None cache_dir threshold timeout mode).1
                 !! name)).
Proof.
  intros Hin. unfold Config.configured, Config.config_value.
  set (self := (Config.__init__ None cache_dir threshold timeout mode).1).
  unfold Config.init_app. cbn [fst snd].
  set (cfg := foldl _ config Config.DEFAULT_CONFIG).
  unfold Config.getattr.
  repeat (apply elem_of_cons in Hin as [[= -> ->]|Hin]);
    [..|by apply elem_of_nil in Hin];
    by repeat (first [ rewrite lookup_insert_eq
                     | rewrite lookup_insert_ne by done ]).
Qed.

Lemma set_if_lookup_eq v name (self : gmap string Config.pyval) :
  Config.truthy v = true → Config.set_if v name self !! name = Some v.
Proof. unfold Config.set_if. intros ->. apply lookup_insert_eq. Qed.

(** X19.  A constructor argument Python takes for true is what the
    instance uses: it wins over the application's [config] and over the
    defaults. *)
Theorem truthy_constructor_arguments_win
    config cache_dir threshold timeout mode :
  let self := Config.configured config cache_dir threshold timeout mode in
  (Config.truthy cache_dir = true → self !! "_path" = Some cache_dir) ∧
  (Config.truthy threshold = true → self !! "_threshold" = Some threshold) ∧
  (Config.truthy timeout = true → self !! "_timeout" = Some timeout) ∧
  (Config.truthy mode = true → self !! "_mode" = Some mode).
Proof.
  intros self. subst self.
  split_and!; intros Ht;
    [ rewrite (configured_attr _ _ _ _ _ "_path" "FILECACHE_DIR")
        by set_solver
    | rewrite (configured_attr _ _ _ _ _ "_threshold" "FILECACHE_THRESHOLD")
        by set_solver
    | rewrite (configured_attr _ _ _ _ _ "_timeout" "FILECACHE_TIMEOUT")
        by set_solver
    | rewrite (configured_attr _ _ _ _ _ "_mode" "FILECACHE_MODE")
        by set_solver ];
    unfold Config.__init__; cbn [fst];
    repeat (rewrite set_if_lookup_ne by done);
    by rewrite set_if_lookup_eq.
Qed.

Lemma truthy_constructor_arguments_win_witness :
  Config.configured {[ "FILECACHE_THRESHOLD" := Config.PInt 7 ]}
    Config.PNone (Config.PInt 50) Config.PNone Config.PNone !! "_threshold"
  = Some (Config.PInt 50).
Proof.
  destruct (truthy_constructor_arguments_win
              {[ "FILECACHE_THRESHOLD" := Config.PInt 7 ]}
              Config.PNone (Config.PInt 50) Config.PNone Config.PNone)
    as (_ & Hth & _ & _).
  exact (Hth eq_refl).
Defined.

Lemma lookup_setdefault k v (d : gmap string Config.pyval) j :
  Config.setdefault k v d !! j =
  match d !! j with
  | Some x => Some x
  | None => if decide (k = j) then Some v else None
  end.
Proof.
  unfold Config.setdefault. destruct (d !! k) eqn:Hk.
  - destruct (d !! j) eqn:Hj; [done|]. case_decide; [congruence|done].
  - destruct (decide (k = j)) as [->|Hne].
    + by rewrite lookup_insert_eq, Hk.
    + rewrite lookup_insert_ne by done. by destruct (d !! j).
Qed.

(** X20.  [init_app] completes the application's [config] and overrides
    nothing in it: every key the application has set keeps its value, and
    a key it has not set reads as [DEFAULT_CONFIG] has it. *)
Theorem init_app_fills_in_defaults self config k :
  (Config.init_app self config).2 !! k =
  match config !! k with
  | Some v => Some v
  | None => (list_to_map Config.DEFAULT_CONFIG : gmap string Config.pyval) !! k
  end.
Proof.
  unfold Config.init_app. cbn [snd foldl Config.DEFAULT_CONFIG fst].
  rewrite !lookup_setdefault.
  destruct (config !! k); [done|].
  cbn [list_to_map foldr fst snd].
  repeat (case_decide; [subst; by simplify_map_eq|]).
  by simplify_map_eq.
Qed.

(** X21.  An instance is configured once: calling [init_app] again, with
    whatever other application, leaves every attribute as the first call
    set it. *)
Theorem init_app_again_keeps_attributes self config config' :
  (Config.init_app (Config.init_app self config).1 config').1
  = (Config.init_app self config).1.
Proof.
  unfold Config.init_app. cbn [fst snd].
  set (cfg := foldl _ config Config.DEFAULT_CONFIG).
  set (cfg' := foldl _ config' Config.DEFAULT_CONFIG).
  unfold Config.getattr.
  set (p := default (cfg !!! "FILECACHE_DIR") (self !! "_path")).
  set (s1 := <["_path" := p]> self).
  set (th := default (cfg !!! "FILECACHE_THRESHOLD") (s1 !! "_threshold")).
  set (s2 := <["_threshold" := th]> s1).
  set (to := default (cfg !!! "FILECACHE_TIMEOUT") (s2 !! "_timeout")).
  set (s3 := <["_timeout" := to]> s2).
  set (md := default (cfg !!! "FILECACHE_MODE") (s3 !! "_mode")).
  set (s4 := <["_mode" := md]> s3).
  assert (s4 !! "_path" = Some p) as Hp
    by (by subst s4 s3 s2 s1; simplify_map_eq).
  assert (s4 !! "_threshold" = Some th) as Hth
    by (by subst s4 s3 s2; simplify_map_eq).
  assert (s4 !! "_timeout" = Some to) as Hto
    by (by subst s4 s3; simplify_map_eq).
  assert (s4 !! "_mode" = Some md) as Hmd by (by subst s4; simplify_map_eq).
  rewrite Hp. cbn [default]. rewrite (insert_id s4 "_path" p Hp).
  rewrite Hth. cbn [default]. rewrite (insert_id s4 "_threshold" th Hth).
  rewrite Hto. cbn [default]. rewrite (insert_id s4 "_timeout" to Hto).
  rewrite Hmd. cbn [default]. by rewrite (insert_id s4 "_mode" md Hmd).
Qed.
